(** * The counter testbench of simtool ([examples/counter/tb/sv/counter_tb.cpp])

    A shallow embedding of the testbench's [main]: the Verilated model it
    drives is an interface (a record of ports plus an evaluation function),
    the statements of [main] are commands of a small state monad over the
    process state, and the [for] loop is a function that recurses on the
    distance of [cycle] to its bound. *)

From Stdlib Require Import ZArith List Sorted String Ascii Bool Lia.
From Stdlib Require Import DecimalString DecimalZ Recdef.
Import ListNotations.

Open Scope Z_scope.

(** ** Machine integers *)

Module CInt.

(** [int]: 32 bits, two's complement. *)
Definition wrap (z : Z) : Z := (z + 2 ^ 31) mod 2 ^ 32 - 2 ^ 31.

Definition add (a b : Z) : Z := wrap (a + b).
Definition mul (a b : Z) : Z := wrap (a * b).

(** [vluint64_t], the type of the time stamp that [dump] takes. *)
Definition to_u64 (z : Z) : Z := z mod 2 ^ 64.

(** [%d] of [printf]. *)
Definition fmt_d (z : Z) : string := NilZero.string_of_int (Z.to_int z).

End CInt.

(** ** The device under test *)

(** The public members of the generated class [Vcounter] that the testbench
    touches, and the rest of the object as an abstract [internals]. *)
Record Vcounter (St : Type) : Type := mkVcounter {
  clk : Z;
  rst_n : Z;
  enable : Z;
  count : Z;
  internals : St
}.

Arguments mkVcounter {St}.
Arguments clk {St}.
Arguments rst_n {St}.
Arguments enable {St}.
Arguments count {St}.
Arguments internals {St}.

Definition with_clk {St} (v : Z) (m : Vcounter St) : Vcounter St :=
  mkVcounter v (rst_n m) (enable m) (count m) (internals m).
Definition with_rst_n {St} (v : Z) (m : Vcounter St) : Vcounter St :=
  mkVcounter (clk m) v (enable m) (count m) (internals m).
Definition with_enable {St} (v : Z) (m : Vcounter St) : Vcounter St :=
  mkVcounter (clk m) (rst_n m) v (count m) (internals m).

(** What the simulation backend supplies for a model: the object that
    [new Vcounter] returns, what [eval()] does to it, and whether that
    evaluation raises the backend's finish flag. *)
Class Dut (St : Type) : Type := {
  dut_new : Vcounter St;
  dut_eval : Vcounter St -> Vcounter St;
  dut_finish : Vcounter St -> bool
}.

(** The three input ports, as one evaluation sees them. *)
Record Ports : Type := mkPorts { p_clk : Z; p_rst_n : Z; p_enable : Z }.

Definition ports {St} (m : Vcounter St) : Ports :=
  mkPorts (clk m) (rst_n m) (enable m).

(** ** The backend and the trace recorder *)

(** The static state of [Verilated]. *)
Record Verilated : Type := mkVerilated {
  cmd_args : list string;
  got_finish : bool;
  trace_ever_on : bool
}.

(** One recorded sample: the port values of the traced model. *)
Record Signals : Type := mkSignals {
  s_clk : Z; s_rst_n : Z; s_enable : Z; s_count : Z
}.

Definition signals {St} (m : Vcounter St) : Signals :=
  mkSignals (clk m) (rst_n m) (enable m) (count m).

Definition Sample : Type := (Z * Signals)%type.

(** A [VerilatedVcdC] object. *)
Record VerilatedVcdC : Type := mkVcd {
  vcd_levels : option Z;
  vcd_file : option string;
  vcd_samples : list Sample
}.

Definition new_VerilatedVcdC : VerilatedVcdC := mkVcd None None [].

(** ** The process state *)

Inductive Obj : Type := ObjTop | ObjTfp.

Definition Obj_eqb (a b : Obj) : bool :=
  match a, b with
  | ObjTop, ObjTop | ObjTfp, ObjTfp => true
  | _, _ => false
  end.

(** Every call that [main] makes to the outside, in program order. *)
Inductive Event : Type :=
| EvCommandArgs
| EvNew (o : Obj)
| EvGotFinish (answer : bool)
| EvTraceEverOn (flag : bool)
| EvTrace (levels : Z)
| EvOpen (name : string)
| EvSetRstN (v : Z)
| EvSetEnable (v : Z)
| EvSetClk (v : Z)
| EvEval (seen : Ports)
| EvDump (time : Z)
| EvPrintf (cycle value : Z)
| EvClose
| EvDelete (o : Obj)
| EvReturn (code : Z).

Section Testbench.

Context {St : Type} {dut : Dut St}.

Record World : Type := mkWorld {
  ctx : Verilated;              (* the backend's static state *)
  top : Vcounter St;            (* the object [top] points to *)
  tfp : option VerilatedVcdC;   (* [None] is [nullptr] *)
  stdout : string;              (* what has been printed *)
  fs : list (string * list Sample);   (* waveform files written *)
  live : list Obj;              (* heap objects not yet deleted *)
  log : list Event
}.

(** *** The monad of [main]'s statements *)

Definition M (A : Type) : Type := World -> A * World.

Definition ret {A} (a : A) : M A := fun w => (a, w).
Definition bind {A B} (c : M A) (k : A -> M B) : M B :=
  fun w => let (a, w') := c w in k a w'.

Notation "x <- c ;; k" := (bind c (fun x => k))
  (at level 61, c at next level, right associativity).
Notation "c ;; k" := (bind c (fun _ => k))
  (at level 61, right associativity).

Definition exec {A} (c : M A) (w : World) : World := snd (c w).

Definition emit (e : Event) : M unit := fun w =>
  (tt, mkWorld (ctx w) (top w) (tfp w) (stdout w) (fs w) (live w) (log w ++ [e])).
Definition upd_ctx (f : Verilated -> Verilated) : M unit := fun w =>
  (tt, mkWorld (f (ctx w)) (top w) (tfp w) (stdout w) (fs w) (live w) (log w)).
Definition upd_top (f : Vcounter St -> Vcounter St) : M unit := fun w =>
  (tt, mkWorld (ctx w) (f (top w)) (tfp w) (stdout w) (fs w) (live w) (log w)).
Definition upd_tfp (f : option VerilatedVcdC -> option VerilatedVcdC) : M unit :=
  fun w =>
  (tt, mkWorld (ctx w) (top w) (f (tfp w)) (stdout w) (fs w) (live w) (log w)).
Definition upd_stdout (f : string -> string) : M unit := fun w =>
  (tt, mkWorld (ctx w) (top w) (tfp w) (f (stdout w)) (fs w) (live w) (log w)).
Definition upd_fs (f : list (string * list Sample) -> list (string * list Sample))
  : M unit := fun w =>
  (tt, mkWorld (ctx w) (top w) (tfp w) (stdout w) (f (fs w)) (live w) (log w)).
Definition upd_live (f : list Obj -> list Obj) : M unit := fun w =>
  (tt, mkWorld (ctx w) (top w) (tfp w) (stdout w) (fs w) (f (live w)) (log w)).
Definition get {A} (f : World -> A) : M A := fun w => (f w, w).

(** *** The calls of [main] *)

(** [Verilated::gotFinish()] *)
Definition gotFinish : M bool :=
  b <- get (fun w => got_finish (ctx w)) ;;
  emit (EvGotFinish b) ;;
  ret b.

(** [Verilated::traceEverOn(flag)] *)
Definition traceEverOn (flag : bool) : M unit :=
  upd_ctx (fun v => mkVerilated (cmd_args v) (got_finish v) flag) ;;
  emit (EvTraceEverOn flag).

(** [tfp = new VerilatedVcdC] *)
Definition new_tfp : M unit :=
  upd_tfp (fun _ => Some new_VerilatedVcdC) ;;
  upd_live (fun l => ObjTfp :: l) ;;
  emit (EvNew ObjTfp).

(** [top->trace(tfp, levels)] *)
Definition top_trace (levels : Z) : M unit :=
  upd_tfp (option_map (fun r => mkVcd (Some levels) (vcd_file r) (vcd_samples r))) ;;
  emit (EvTrace levels).

(** [tfp->open(name)] *)
Definition tfp_open (name : string) : M unit :=
  upd_tfp (option_map (fun r => mkVcd (vcd_levels r) (Some name) (vcd_samples r))) ;;
  emit (EvOpen name).

(** [top->rst_n = v], [top->enable = v], [top->clk = v] *)
Definition set_rst_n (v : Z) : M unit := upd_top (with_rst_n v) ;; emit (EvSetRstN v).
Definition set_enable (v : Z) : M unit := upd_top (with_enable v) ;; emit (EvSetEnable v).
Definition set_clk (v : Z) : M unit := upd_top (with_clk v) ;; emit (EvSetClk v).

(** [top->eval()] *)
Definition top_eval : M unit :=
  m <- get top ;;
  emit (EvEval (ports m)) ;;
  upd_ctx (fun v =>
    mkVerilated (cmd_args v) (got_finish v || dut_finish m) (trace_ever_on v)) ;;
  upd_top dut_eval.

(** [tfp->dump(time)]: one sample of the traced model at [time]. *)
Definition tfp_dump (time : Z) : M unit :=
  m <- get top ;;
  upd_tfp (option_map (fun r =>
    mkVcd (vcd_levels r) (vcd_file r)
          (vcd_samples r ++ [(CInt.to_u64 time, signals m)]))) ;;
  emit (EvDump (CInt.to_u64 time)).

(** [printf("Cycle %d: count = %d\n", cycle, value)] *)
Definition line (cycle value : Z) : string :=
  ("Cycle " ++ CInt.fmt_d cycle ++ ": count = " ++ CInt.fmt_d value)%string.

Definition newline : string := String (ascii_of_nat 10) EmptyString.

Definition printf (cycle value : Z) : M unit :=
  upd_stdout (fun s => (s ++ line cycle value ++ newline)%string) ;;
  emit (EvPrintf cycle value).

(** [tfp->close()]: the samples reach the file that was opened. *)
Definition tfp_close : M unit :=
  r <- get tfp ;;
  match r with
  | Some (mkVcd _ (Some name) samples) => upd_fs (fun l => l ++ [(name, samples)])
  | _ => ret tt
  end ;;
  emit EvClose.

(** [delete p] *)
Definition delete (o : Obj) : M unit :=
  upd_live (filter (fun x => negb (Obj_eqb x o))) ;;
  emit (EvDelete o).

(** [if (tfp) c] *)
Definition if_tfp (c : M unit) : M unit :=
  r <- get tfp ;;
  match r with Some _ => c | None => ret tt end.

(** *** The loop *)

(** Lines 24 to 41: one iteration. *)
Definition loop_body (cycle : Z) : M unit :=
  (if cycle <? 5 then
     set_rst_n 0
   else
     set_rst_n 1 ;;
     set_enable 1) ;;
  set_clk 0 ;;
  top_eval ;;
  if_tfp (tfp_dump (CInt.mul cycle 2)) ;;
  set_clk 1 ;;
  top_eval ;;
  if_tfp (tfp_dump (CInt.add (CInt.mul cycle 2) 1)) ;;
  v <- get (fun w => count (top w)) ;;
  printf cycle v.

(** How many iterations a loop that stands at [cycle] still has to run. *)
Definition to_go (cycle : Z) : nat := Z.to_nat (100 - cycle).

(** [for (int cycle = c; cycle < 100; cycle++) body] *)
Function for_loop (cycle : Z) (w : World) {measure to_go cycle} : World :=
  match Z_lt_dec cycle 100 with
  | left _ => for_loop (CInt.add cycle 1) (exec (loop_body cycle) w)
  | right _ => w
  end.
Proof.
  (* [cycle++] moves [cycle] towards the bound, also through the wrap-around *)
  intros cycle _ Hlt _. unfold to_go, CInt.add, CInt.wrap.
  pose proof (Z.mod_pos_bound (cycle + 1 + 2 ^ 31) (2 ^ 32) ltac:(lia)) as Hb.
  destruct (Z_lt_dec (cycle + 1) (- 2 ^ 31)) as [Hlow | Hlow]; [lia |].
  rewrite Z.mod_small by lia. lia.
Defined.

(** *** [main] *)

(** Lines 6 to 10: the state in which the first statement runs. *)
Definition startup (argv : list string) (v0 : Verilated) : World :=
  mkWorld (mkVerilated argv (got_finish v0) (trace_ever_on v0))
          dut_new None EmptyString [] [ObjTop]
          [EvCommandArgs; EvNew ObjTop].

Definition main_body : M Z :=
  fin <- gotFinish ;;
  (if Bool.eqb fin false then
     traceEverOn true ;;
     new_tfp ;;
     top_trace 99 ;;
     tfp_open "counter.vcd"
   else ret tt) ;;
  set_rst_n 0 ;;
  set_enable 0 ;;
  set_clk 0 ;;
  (fun w => (tt, for_loop 0 w)) ;;
  if_tfp (tfp_close ;; delete ObjTfp) ;;
  delete ObjTop ;;
  emit (EvReturn 0) ;;
  ret 0.

(** The exit status and the final state of a run with arguments [argv]
    in a backend whose static state is [v0]. *)
Definition main (argv : list string) (v0 : Verilated) : Z * World :=
  main_body (startup argv v0).

(** *** The run as the specification describes it *)

(** The cycle numbers [from], [from + 1], ... ([n] of them). *)
Fixpoint zrange (from : Z) (n : nat) : list Z :=
  match n with
  | O => []
  | S k => from :: zrange (from + 1) k
  end.

Definition cycles : list Z := zrange 0 100.

(** The loop as the sequence of its iterations. *)
Definition run_cycles (cs : list Z) (w : World) : World :=
  fold_left (fun w c => exec (loop_body c) w) cs w.

(** Step 1 of the per-cycle procedure: the reset-window policy. *)
Definition policy (cycle : Z) (m : Vcounter St) : Vcounter St :=
  if cycle <? 5 then with_rst_n 0 m else with_enable 1 (with_rst_n 1 m).

(** The model at the four points of a cycle: as each of the two
    evaluations receives it and as it leaves it. *)
Record Step : Type := mkStep {
  st_cycle : Z;
  st_fall_in : Vcounter St;
  st_fall_out : Vcounter St;
  st_rise_in : Vcounter St;
  st_rise_out : Vcounter St
}.

(** Steps 2 and 3: the falling-edge and the rising-edge half-cycle. *)
Definition observe (cycle : Z) (m : Vcounter St) : Step :=
  let a := with_clk 0 (policy cycle m) in
  let b := dut_eval a in
  let c := with_clk 1 b in
  mkStep cycle a b c (dut_eval c).

Fixpoint trajectory (cs : list Z) (m : Vcounter St) : list Step :=
  match cs with
  | [] => []
  | c :: cs' => observe c m :: trajectory cs' (st_rise_out (observe c m))
  end.

Definition last_model (tr : list Step) (m : Vcounter St) : Vcounter St :=
  fold_left (fun _ s => st_rise_out s) tr m.

(** The model when the loop is entered (lines 19 to 21). *)
Definition top0 : Vcounter St := with_clk 0 (with_enable 0 (with_rst_n 0 dut_new)).

(** The hundred cycles of a run. *)
Definition run_steps : list Step := trajectory cycles top0.

(** The values of [count] that the cycles report. *)
Definition reported : list Z := map (fun s => count (st_rise_out s)) run_steps.

(** What a cycle contributes to the output, the waveform and the log. *)
Definition step_output (s : Step) : string :=
  (line (st_cycle s) (count (st_rise_out s)) ++ newline)%string.

Definition step_samples (s : Step) : list Sample :=
  [ (2 * st_cycle s, signals (st_fall_out s));
    (2 * st_cycle s + 1, signals (st_rise_out s)) ].

Definition step_finish (s : Step) : bool :=
  dut_finish (st_fall_in s) || dut_finish (st_rise_in s).

Definition policy_events (cycle : Z) : list Event :=
  if cycle <? 5 then [EvSetRstN 0] else [EvSetRstN 1; EvSetEnable 1].

Definition step_events (tracing : bool) (s : Step) : list Event :=
  policy_events (st_cycle s)
  ++ [EvSetClk 0; EvEval (ports (st_fall_in s))]
  ++ (if tracing then [EvDump (2 * st_cycle s)] else [])
  ++ [EvSetClk 1; EvEval (ports (st_rise_in s))]
  ++ (if tracing then [EvDump (2 * st_cycle s + 1)] else [])
  ++ [EvPrintf (st_cycle s) (count (st_rise_out s))].

Definition startup_events (finished : bool) : list Event :=
  [EvCommandArgs; EvNew ObjTop; EvGotFinish finished]
  ++ (if finished then []
      else [EvTraceEverOn true; EvNew ObjTfp; EvTrace 99; EvOpen "counter.vcd"])
  ++ [EvSetRstN 0; EvSetEnable 0; EvSetClk 0].

Definition teardown_events (tracing : bool) : list Event :=
  (if tracing then [EvClose; EvDelete ObjTfp] else [])
  ++ [EvDelete ObjTop; EvReturn 0].

Definition concat_output (tr : list Step) : string :=
  fold_right (fun s acc => (step_output s ++ acc)%string) EmptyString tr.

(** Whether a recorder is there ([tfp] is not [nullptr]). *)
Definition recording (w : World) : bool :=
  match tfp w with Some _ => true | None => false end.

(** The state that [tr] cycles, started in [w], lead to. *)
Definition after_steps (tr : list Step) (w : World) : World :=
  mkWorld
    (mkVerilated (cmd_args (ctx w))
                 (got_finish (ctx w) || existsb step_finish tr)
                 (trace_ever_on (ctx w)))
    (last_model tr (top w))
    (option_map (fun r => mkVcd (vcd_levels r) (vcd_file r)
                                (vcd_samples r ++ flat_map step_samples tr))
                (tfp w))
    (stdout w ++ concat_output tr)
    (fs w)
    (live w)
    (log w ++ flat_map (step_events (recording w)) tr).

(** The state that a run ends in. *)
Definition final_world (argv : list string) (v0 : Verilated) : World :=
  let finished := got_finish v0 in
  let samples := flat_map step_samples run_steps in
  mkWorld
    (mkVerilated argv
                 (finished || existsb step_finish run_steps)
                 (if finished then trace_ever_on v0 else true))
    (last_model run_steps top0)
    (if finished then None
     else Some (mkVcd (Some 99) (Some "counter.vcd"%string) samples))
    (concat_output run_steps)
    (if finished then [] else [("counter.vcd"%string, samples)])
    []
    (startup_events finished
     ++ flat_map (step_events (negb finished)) run_steps
     ++ teardown_events (negb finished)).

End Testbench.

Arguments cycles : simpl never.
Arguments run_steps : simpl never.

(** ** Reading the log and the output *)

Definition evals_seen (l : list Event) : list Ports :=
  flat_map (fun e => match e with EvEval p => [p] | _ => [] end) l.

Definition printed (l : list Event) : list (Z * Z) :=
  flat_map (fun e => match e with EvPrintf c v => [(c, v)] | _ => [] end) l.

Definition dump_times (l : list Event) : list Z :=
  flat_map (fun e => match e with EvDump t => [t] | _ => [] end) l.

Definition rst_n_writes (l : list Event) : list Z :=
  flat_map (fun e => match e with EvSetRstN v => [v] | _ => [] end) l.

Definition enable_writes (l : list Event) : list Z :=
  flat_map (fun e => match e with EvSetEnable v => [v] | _ => [] end) l.

Definition finish_queries (l : list Event) : list bool :=
  flat_map (fun e => match e with EvGotFinish b => [b] | _ => [] end) l.

(** The part of a run that concerns the model and the console. *)
Definition is_dut_event (e : Event) : bool :=
  match e with
  | EvSetRstN _ | EvSetEnable _ | EvSetClk _ | EvEval _ | EvPrintf _ _ => true
  | _ => false
  end.

Definition is_teardown_event (e : Event) : bool :=
  match e with
  | EvClose | EvDelete _ | EvReturn _ => true
  | _ => false
  end.

(** The lines of a text, each one ended by a line feed. *)
Definition is_newline (a : ascii) : bool := Ascii.eqb a (ascii_of_nat 10).

Definition not_newline (a : ascii) : bool := negb (is_newline a).

Fixpoint split_lines (s : string) : list string :=
  match s with
  | EmptyString => []
  | String a s' =>
      if is_newline a then EmptyString :: split_lines s'
      else match split_lines s' with
           | [] => [String a EmptyString]
           | l :: ls => String a l :: ls
           end
  end.

(** The text made of the lines [ls]. *)
Definition unlines (ls : list string) : string :=
  fold_right (fun l acc => (l ++ newline ++ acc)%string) EmptyString ls.

Fixpoint all_chars (P : ascii -> bool) (s : string) : bool :=
  match s with
  | EmptyString => true
  | String a s' => P a && all_chars P s'
  end.

Definition is_sign_or_digit (a : ascii) : bool :=
  existsb (Ascii.eqb a) (list_ascii_of_string "-0123456789").

(** Whether [l] is a line about cycle [n]. *)
Definition is_line_of (n : Z) (l : string) : bool :=
  String.prefix ("Cycle " ++ CInt.fmt_d n ++ ":") l.

(** The level of [rst_n], and of [enable], that the reset-window policy
    asks for in cycle [c]. *)
Definition released (c : Z) : Z := if c <? 5 then 0 else 1.

Definition expected_ports (clock c : Z) : Ports :=
  mkPorts clock (released c) (released c).

(** The writes to [rst_n] and [enable], with the end of every cycle marked. *)
Inductive Mark : Type :=
| WriteRstN (v : Z)
| WriteEnable (v : Z)
| EndOfCycle (c : Z).

Definition marks (l : list Event) : list Mark :=
  flat_map (fun e => match e with
                     | EvSetRstN v => [WriteRstN v]
                     | EvSetEnable v => [WriteEnable v]
                     | EvPrintf c _ => [EndOfCycle c]
                     | _ => []
                     end) l.

Definition is_open_event (e : Event) : bool :=
  match e with EvOpen _ => true | _ => false end.

(** The two states of the driver. *)
Inductive DriverState : Type := RESETTING | RUNNING.

Definition driver_state (p : Ports) : DriverState :=
  if p_rst_n p =? 0 then RESETTING else RUNNING.

Fixpoint transitions (l : list DriverState) : list (DriverState * DriverState) :=
  match l with
  | a :: ((b :: _) as rest) =>
      match a, b with
      | RESETTING, RESETTING | RUNNING, RUNNING => transitions rest
      | _, _ => (a, b) :: transitions rest
      end
  | _ => []
  end.

(** ** The counter behind [Vcounter] *)

Module Counter.

Section Counter.

Variable width : nat.          (* number of bits of [count] *)
Variable reset_value : Z.      (* the value [count] is held at in reset *)
Variable power_on : Z.         (* [count] of a freshly constructed model *)

(** The model remembers the clock level of its last evaluation, to see
    the rising edges. *)
Record Regs : Type := mkRegs { last_clk : Z }.

Definition modulus : Z := 2 ^ Z.of_nat width.

(** Modelled from the spec: the design under test and the class [Vcounter]
    generated from it (the headers [Vcounter.h] and the counter's RTL are not
    among the sources). A synchronous counter with an active-low reset: while
    [rst_n] is 0 the counter is held at its reset value; otherwise a rising
    edge of [clk] with [enable] set adds exactly 1, modulo the wraparound
    width. The input ports are left as the testbench drove them. *)
Definition counter_eval (m : Vcounter Regs) : Vcounter Regs :=
  let rising := (last_clk (internals m) =? 0) && negb (clk m =? 0) in
  let next :=
    if rst_n m =? 0 then reset_value
    else if rising && negb (enable m =? 0) then (count m + 1) mod modulus
    else count m in
  mkVcounter (clk m) (rst_n m) (enable m) next (mkRegs (clk m)).

#[export] Instance counter_dut : Dut Regs := {
  dut_new := mkVcounter 0 0 0 power_on (mkRegs 0);
  dut_eval := counter_eval;
  dut_finish := fun _ => false
}.

End Counter.

End Counter.

(** ** A model that finishes *)

(** A model without state whose every evaluation raises the backend's
    finish flag (a design that executes [$finish]). *)
Definition finishing_dut : Dut unit := {|
  dut_new := mkVcounter 0 0 0 0 tt;
  dut_eval := fun m => m;
  dut_finish := fun _ => true
|}.

(** ** The runs used as examples *)

Definition fresh_backend : Verilated := mkVerilated [] false false.
Definition finished_backend : Verilated := mkVerilated [] true false.

(** An 8-bit counter that resets to 0 and is 0 when constructed. *)
Definition counter8 : Dut Counter.Regs := Counter.counter_dut 8 0 0.

(** ** Further readings of a run *)

(** The objects that a call works on. *)
Definition uses (e : Event) : list Obj :=
  match e with
  | EvTrace _ => [ObjTop; ObjTfp]
  | EvOpen _ | EvDump _ | EvClose => [ObjTfp]
  | EvSetRstN _ | EvSetEnable _ | EvSetClk _ | EvEval _ | EvPrintf _ _ => [ObjTop]
  | _ => []
  end.

Definition allocated (o : Obj) (heap : list Obj) : bool :=
  existsb (Obj_eqb o) heap.

(** Replays a log on a heap: [None] as soon as a call works on an object
    that is not allocated, an object is deleted that is not allocated, or a
    pointer to an allocated object is overwritten by a new allocation;
    otherwise the objects that are left. *)
Fixpoint heap_run (heap : list Obj) (l : list Event) : option (list Obj) :=
  match l with
  | [] => Some heap
  | e :: l' =>
      match e with
      | EvNew o =>
          if allocated o heap then None else heap_run (o :: heap) l'
      | EvDelete o =>
          if allocated o heap
          then heap_run (filter (fun x => negb (Obj_eqb x o)) heap) l'
          else None
      | _ =>
          if forallb (fun o => allocated o heap) (uses e)
          then heap_run heap l'
          else None
      end
  end.

(** The calls that concern the recorder. *)
Definition is_recorder_event (e : Event) : bool :=
  match e with
  | EvTraceEverOn _ | EvNew ObjTfp | EvTrace _ | EvOpen _ | EvDump _
  | EvClose | EvDelete ObjTfp => true
  | _ => false
  end.

Definition clk_writes (l : list Event) : list Z :=
  flat_map (fun e => match e with EvSetClk v => [v] | _ => [] end) l.

(** The entries at the even positions 0, 2, 4, ... *)
Fixpoint evens {A : Type} (l : list A) : list A :=
  match l with
  | [] => []
  | a :: l' => a :: match l' with
                    | [] => []
                    | _ :: rest => evens rest
                    end
  end.

(** The time and the input levels of a sample. *)
Definition sample_ports (s : Sample) : Z * Ports :=
  (fst s, mkPorts (s_clk (snd s)) (s_rst_n (snd s)) (s_enable (snd s))).

(** Reading a line of the output back. *)
Fixpoint strip_prefix (p s : string) : option string :=
  match p with
  | EmptyString => Some s
  | String a p' =>
      match s with
      | EmptyString => None
      | String b s' => if Ascii.eqb a b then strip_prefix p' s' else None
      end
  end.

Definition is_colon (a : ascii) : bool := Ascii.eqb a ":"%char.
Definition not_colon (a : ascii) : bool := negb (is_colon a).

(** The text before the first colon, and the rest from the colon on. *)
Fixpoint break_at_colon (s : string) : string * string :=
  match s with
  | EmptyString => (EmptyString, EmptyString)
  | String a s' =>
      if is_colon a then (EmptyString, s)
      else let (x, y) := break_at_colon s' in (String a x, y)
  end.

Definition read_d (s : string) : option Z :=
  option_map Z.of_int (NilZero.int_of_string s).

Definition parse_line (l : string) : option (Z * Z) :=
  match strip_prefix "Cycle " l with
  | None => None
  | Some r =>
      let (c, rest) := break_at_colon r in
      match strip_prefix ": count = " rest with
      | None => None
      | Some v =>
          match read_d c, read_d v with
          | Some c', Some v' => Some (c', v')
          | _, _ => None
          end
      end
  end.

(** * Properties *)

(** ** Strings and ranges *)

Lemma append_assoc (a b c : string) : ((a ++ b) ++ c = a ++ (b ++ c))%string.
Proof. induction a as [| x a IH]; simpl; [reflexivity | now rewrite IH]. Qed.

Lemma append_nil_r (a : string) : (a ++ "")%string = a.
Proof. induction a as [| x a IH]; simpl; [reflexivity | now rewrite IH]. Qed.

Lemma zrange_length (from : Z) (n : nat) : List.length (zrange from n) = n.
Proof. revert from; induction n as [| n IH]; intros; simpl; [| rewrite IH]; reflexivity. Qed.

Lemma zrange_bounds (n : nat) : forall (from c : Z),
  In c (zrange from n) -> from <= c < from + Z.of_nat n.
Proof.
  induction n as [| n IH]; intros from c Hin; simpl in Hin; [tauto |].
  destruct Hin as [<- | Hin]; [lia |].
  apply IH in Hin. lia.
Qed.

Lemma cycles_bounds (c : Z) : In c cycles -> 0 <= c < 100.
Proof. intros H. apply zrange_bounds in H. simpl in H. lia. Qed.

(** ** Machine arithmetic stays exact on the cycle numbers *)

Lemma wrap_small (z : Z) : - 2 ^ 31 <= z < 2 ^ 31 -> CInt.wrap z = z.
Proof. intros H. unfold CInt.wrap. rewrite Z.mod_small by lia. lia. Qed.

Lemma cycle_succ (c : Z) : 0 <= c < 100 -> CInt.add c 1 = c + 1.
Proof. intros H. unfold CInt.add. apply wrap_small. lia. Qed.

Lemma time_fall (c : Z) : 0 <= c < 100 -> CInt.to_u64 (CInt.mul c 2) = 2 * c.
Proof.
  intros H. unfold CInt.mul, CInt.to_u64.
  rewrite wrap_small by lia. rewrite Z.mod_small by lia. lia.
Qed.

Lemma time_rise (c : Z) :
  0 <= c < 100 -> CInt.to_u64 (CInt.add (CInt.mul c 2) 1) = 2 * c + 1.
Proof.
  intros H. unfold CInt.mul, CInt.add, CInt.to_u64.
  rewrite (wrap_small (c * 2)) by lia. rewrite wrap_small by lia.
  rewrite Z.mod_small by lia. lia.
Qed.

(** ** Lists *)

Lemma flat_map_flat_map {A B C : Type} (f : B -> list C) (g : A -> list B)
      (l : list A) :
  flat_map f (flat_map g l) = flat_map (fun x => flat_map f (g x)) l.
Proof.
  induction l as [| x l IH]; simpl; [reflexivity |].
  now rewrite flat_map_app, IH.
Qed.

Lemma flat_map_of_map {A B C : Type} (f : B -> list C) (g : A -> B)
      (l : list A) :
  flat_map f (map g l) = flat_map (fun x => f (g x)) l.
Proof. induction l as [| x l IH]; simpl; [| rewrite IH]; reflexivity. Qed.

Lemma flat_map_singleton {A B : Type} (f : A -> B) (l : list A) :
  flat_map (fun x => [f x]) l = map f l.
Proof. induction l as [| x l IH]; simpl; [| rewrite IH]; reflexivity. Qed.

Lemma flat_map_empty {A B : Type} (l : list A) :
  flat_map (fun _ : A => @nil B) l = [].
Proof. induction l as [| x l IH]; simpl; [| rewrite IH]; reflexivity. Qed.

Lemma filter_flat_map {A B : Type} (P : B -> bool) (g : A -> list B)
      (l : list A) :
  filter P (flat_map g l) = flat_map (fun x => filter P (g x)) l.
Proof.
  induction l as [| x l IH]; simpl; [reflexivity |].
  now rewrite filter_app, IH.
Qed.

Lemma combine_maps {A B C : Type} (f : A -> B) (g : A -> C) (l : list A) :
  combine (map f l) (map g l) = map (fun x => (f x, g x)) l.
Proof. induction l as [| x l IH]; simpl; [| rewrite IH]; reflexivity. Qed.

Lemma filter_map_comm {A B : Type} (P : B -> bool) (g : A -> B) (l : list A) :
  filter P (map g l) = map g (filter (fun x => P (g x)) l).
Proof.
  induction l as [| x l IH]; simpl; [reflexivity |].
  rewrite IH. destruct (P (g x)); reflexivity.
Qed.

(** In a range, exactly one entry carries a given number of the range. *)
Lemma filter_zrange_none {V : Type} (k : nat) : forall (from n : Z) (vals : list V),
  n < from ->
  filter (fun cv => n =? fst cv) (combine (zrange from k) vals) = [].
Proof.
  induction k as [| k IH]; intros from n vals Hn; [reflexivity |].
  destruct vals as [| v vals]; [reflexivity |]. cbn [zrange combine filter fst].
  destruct (Z.eqb_spec n from) as [-> | _]; [lia |]. apply IH; lia.
Qed.

Lemma filter_zrange_one {V : Type} (k : nat) : forall (from n : Z) (vals : list V),
  List.length vals = k ->
  from <= n < from + Z.of_nat k ->
  exists v, filter (fun cv => n =? fst cv) (combine (zrange from k) vals) = [(n, v)].
Proof.
  induction k as [| k IH]; intros from n vals Hlen Hn; [lia |].
  destruct vals as [| v vals]; [discriminate |]. cbn [zrange combine filter fst].
  destruct (Z.eqb_spec n from) as [-> | Hne].
  - exists v. now rewrite filter_zrange_none by lia.
  - apply IH; [simpl in Hlen; lia | lia].
Qed.

Lemma zrange_sorted (k : nat) : forall from : Z,
  StronglySorted Z.lt (zrange from k).
Proof.
  induction k as [| k IH]; intros from; simpl; constructor; [apply IH |].
  apply Forall_forall. intros c Hc. apply zrange_bounds in Hc. lia.
Qed.

(** ** Lines of text *)

Lemma all_chars_app (P : ascii -> bool) (a b : string) :
  all_chars P (a ++ b) = all_chars P a && all_chars P b.
Proof.
  induction a as [| x a IH]; simpl; [reflexivity |].
  rewrite IH. apply andb_assoc.
Qed.

Lemma all_chars_weaken (P Q : ascii -> bool) (s : string) :
  (forall a, P a = true -> Q a = true) ->
  all_chars P s = true -> all_chars Q s = true.
Proof.
  intros HPQ. induction s as [| x s IH]; simpl; [reflexivity |].
  intros H. apply andb_true_iff in H as [Hx Hs].
  rewrite (HPQ x Hx). now apply IH.
Qed.

Lemma string_of_uint_chars (d : Decimal.uint) :
  all_chars is_sign_or_digit (NilEmpty.string_of_uint d) = true.
Proof. induction d; simpl; auto. Qed.

Lemma fmt_d_chars (z : Z) : all_chars is_sign_or_digit (CInt.fmt_d z) = true.
Proof.
  unfold CInt.fmt_d, NilZero.string_of_int, NilZero.string_of_uint.
  assert (H : forall d, all_chars is_sign_or_digit
                 match d with
                 | Decimal.Nil => "0"%string
                 | _ => NilEmpty.string_of_uint d
                 end = true).
  { intros d. destruct d; try reflexivity; apply string_of_uint_chars. }
  destruct (Z.to_int z) as [d | d]; cbn [all_chars]; rewrite H; reflexivity.
Qed.

Lemma line_no_newline (c v : Z) : all_chars not_newline (line c v) = true.
Proof.
  unfold line. rewrite !all_chars_app.
  assert (Hd : forall z, all_chars not_newline (CInt.fmt_d z) = true).
  { intros z. apply (all_chars_weaken is_sign_or_digit); [| apply fmt_d_chars].
    intros a Ha. unfold is_sign_or_digit in Ha. simpl in Ha.
    repeat (apply orb_true_iff in Ha as [Ha | Ha];
            [apply Ascii.eqb_eq in Ha; subst a; reflexivity |]).
    discriminate. }
  rewrite !Hd. reflexivity.
Qed.

Lemma split_lines_cons (l rest : string) :
  all_chars not_newline l = true ->
  split_lines (l ++ newline ++ rest) = l :: split_lines rest.
Proof.
  induction l as [| x l IH]; intros Hl.
  - reflexivity.
  - simpl in Hl. apply andb_true_iff in Hl as [Hx Hl].
    cbn [append split_lines]. unfold not_newline in Hx.
    apply negb_true_iff in Hx. rewrite Hx, (IH Hl). reflexivity.
Qed.

(** A line about cycle [c] is recognised as a line of cycle [n] exactly
    when [n] is [c], whatever value it reports. *)
Lemma is_line_of_line (v n c : Z) :
  In n cycles -> In c cycles -> is_line_of n (line c v) = (n =? c).
Proof.
  intros Hn Hc.
  assert (H : forallb (fun n => forallb (fun c =>
                Bool.eqb (is_line_of n (line c v)) (n =? c)) cycles) cycles = true)
    by (vm_compute; reflexivity).
  rewrite forallb_forall in H. specialize (H n Hn).
  rewrite forallb_forall in H. specialize (H c Hc).
  now apply Bool.eqb_prop in H.
Qed.

(** Runs the statements of a command on a state. The reduction is by value,
    so that a state is computed once before the next statement reads it. *)
Ltac run_statements :=
  cbv [exec bind ret get emit upd_ctx upd_top upd_tfp upd_stdout upd_fs upd_live
       gotFinish traceEverOn new_tfp top_trace tfp_open tfp_close tfp_dump
       delete if_tfp set_rst_n set_enable set_clk top_eval printf
       loop_body main main_body startup after_steps recording final_world
       option_map snd fst Bool.eqb negb
       ctx top tfp stdout fs live log cmd_args got_finish trace_ever_on
       vcd_levels vcd_file vcd_samples new_VerilatedVcdC].

(** The contribution of one cycle, spelled out. *)
Ltac one_step :=
  cbv [observe policy step_events policy_events step_samples step_output
       step_finish last_model concat_output fold_left fold_right existsb
       flat_map st_cycle st_fall_in st_fall_out st_rise_in st_rise_out].

Ltac tidy_lists :=
  rewrite ?orb_false_r, ?app_nil_r, ?append_nil_r, ?append_assoc, ?orb_assoc;
  repeat rewrite <- app_assoc;
  cbn [app append filter negb Obj_eqb].

Section Run.

Context {St : Type} {dut : Dut St}.

(** ** The loop is the sequence of its hundred iterations *)

Lemma for_loop_unroll (n : nat) : forall (c : Z) (w : World),
  0 <= c -> c + Z.of_nat n = 100 ->
  for_loop c w = run_cycles (zrange c n) w.
Proof.
  induction n as [| n IH]; intros c w Hc Hn; rewrite for_loop_equation.
  - destruct (Z_lt_dec c 100) as [Hlt | Hge]; [lia | reflexivity].
  - destruct (Z_lt_dec c 100) as [Hlt | Hge]; [| lia].
    rewrite cycle_succ by lia. apply IH; lia.
Qed.

Lemma for_loop_cycles (w : World) : for_loop 0 w = run_cycles cycles w.
Proof. apply (for_loop_unroll 100 0 w); lia. Qed.

(** ** One iteration *)

Lemma loop_body_spec (c : Z) (w : World) :
  0 <= c < 100 ->
  exec (loop_body c) w = after_steps [observe c (top w)] w.
Proof.
  intros Hc. unfold exec, loop_body, if_tfp, tfp_dump.
  rewrite (time_fall c Hc), (time_rise c Hc).
  destruct w as [[a f t] m r out files objs l].
  destruct r as [[lv fl sm] |]; run_statements; one_step;
    destruct (c <? 5); tidy_lists; reflexivity.
Qed.

(** ** Any number of iterations *)

Lemma last_model_app (tr1 tr2 : list (@Step St)) (m : Vcounter St) :
  last_model (tr1 ++ tr2) m = last_model tr2 (last_model tr1 m).
Proof. apply fold_left_app. Qed.

Lemma concat_output_app (tr1 tr2 : list (@Step St)) :
  concat_output (tr1 ++ tr2) = (concat_output tr1 ++ concat_output tr2)%string.
Proof.
  induction tr1 as [| s tr1 IH]; [reflexivity |].
  cbn [app concat_output fold_right].
  fold (concat_output (tr1 ++ tr2)). fold (concat_output tr1).
  rewrite IH. symmetry. apply append_assoc.
Qed.

Lemma after_steps_nil (w : World) : after_steps [] w = w.
Proof.
  destruct w as [[a f t] m r out files objs l].
  destruct r as [[lv fl sm] |]; run_statements; one_step; tidy_lists; reflexivity.
Qed.

Lemma after_steps_app (tr1 tr2 : list (@Step St)) (w : World) :
  after_steps tr2 (after_steps tr1 w) = after_steps (tr1 ++ tr2) w.
Proof.
  destruct w as [[a f t] m r out files objs l].
  destruct r as [[lv fl sm] |]; unfold after_steps, recording;
    cbn [ctx top tfp stdout fs live log cmd_args got_finish trace_ever_on
         option_map vcd_levels vcd_file vcd_samples];
    rewrite last_model_app, concat_output_app, existsb_app, !flat_map_app,
      orb_assoc, append_assoc, <- !app_assoc; reflexivity.
Qed.

Lemma run_cycles_spec (cs : list Z) : forall w : World,
  (forall c, In c cs -> 0 <= c < 100) ->
  run_cycles cs w = after_steps (trajectory cs (top w)) w.
Proof.
  induction cs as [| c cs IH]; intros w Hcs.
  - symmetry. apply after_steps_nil.
  - change (run_cycles (c :: cs) w) with (run_cycles cs (exec (loop_body c) w)).
    rewrite loop_body_spec by (apply Hcs; now left).
    rewrite IH by (intros c' Hc'; apply Hcs; now right).
    rewrite after_steps_app. reflexivity.
Qed.

(** ** The whole run *)

Lemma main_eq (argv : list string) (v0 : Verilated) :
  main argv v0 = (0, final_world argv v0).
Proof.
  destruct v0 as [a0 f0 t0].
  destruct f0; run_statements;
    rewrite for_loop_cycles, run_cycles_spec by apply cycles_bounds;
    run_statements; fold top0; fold run_steps;
    unfold startup_events, teardown_events; tidy_lists; reflexivity.
Qed.

Lemma main_spec (argv : list string) (v0 : Verilated) :
  let finished := got_finish v0 in
  let w := snd (main argv v0) in
  fst (main argv v0) = 0
  /\ log w = startup_events finished
             ++ flat_map (step_events (negb finished)) run_steps
             ++ teardown_events (negb finished)
  /\ stdout w = concat_output run_steps
  /\ fs w = (if finished then []
             else [("counter.vcd"%string, flat_map step_samples run_steps)])
  /\ live w = []
  /\ top w = last_model run_steps top0
  /\ got_finish (ctx w) = finished || existsb step_finish run_steps.
Proof.
  cbv zeta. rewrite main_eq. repeat split.
Qed.

(** ** What the log and the output of a run contain *)

Lemma trajectory_cycles (cs : list Z) : forall m : Vcounter St,
  map st_cycle (trajectory cs m) = cs.
Proof. induction cs as [| c cs IH]; intros m; simpl; [| rewrite IH]; reflexivity. Qed.

Lemma run_steps_cycles : map st_cycle run_steps = cycles.
Proof. apply trajectory_cycles. Qed.

Lemma run_steps_length : List.length run_steps = 100%nat.
Proof.
  rewrite <- (length_map st_cycle), run_steps_cycles. apply zrange_length.
Qed.

Lemma reported_length : List.length reported = 100%nat.
Proof. unfold reported. rewrite length_map. apply run_steps_length. Qed.

Lemma steps_reported :
  map (fun s => (st_cycle s, count (st_rise_out s))) run_steps
  = combine cycles reported.
Proof.
  unfold reported. rewrite <- run_steps_cycles at 1.
  symmetry. apply combine_maps.
Qed.

Lemma printed_steps (tracing : bool) (tr : list (@Step St)) :
  printed (flat_map (step_events tracing) tr)
  = map (fun s => (st_cycle s, count (st_rise_out s))) tr.
Proof.
  unfold printed. rewrite flat_map_flat_map, <- flat_map_singleton.
  apply flat_map_ext. intros s.
  unfold step_events, policy_events.
  destruct (st_cycle s <? 5), tracing; reflexivity.
Qed.

Lemma main_printed (argv : list string) (v0 : Verilated) :
  printed (log (snd (main argv v0))) = combine cycles reported.
Proof.
  destruct (main_spec argv v0) as (_ & Hlog & _). rewrite Hlog.
  unfold printed. rewrite !flat_map_app. fold printed.
  rewrite printed_steps, steps_reported.
  destruct (got_finish v0); reflexivity.
Qed.

Lemma split_lines_output (tr : list (@Step St)) :
  split_lines (concat_output tr)
  = map (fun s => line (st_cycle s) (count (st_rise_out s))) tr.
Proof.
  induction tr as [| s tr IH]; [reflexivity |].
  cbn [concat_output fold_right map]. fold (concat_output tr).
  unfold step_output. rewrite append_assoc.
  rewrite split_lines_cons by apply line_no_newline.
  now rewrite IH.
Qed.

Lemma output_unlines (tr : list (@Step St)) :
  concat_output tr
  = unlines (map (fun s => line (st_cycle s) (count (st_rise_out s))) tr).
Proof.
  induction tr as [| s tr IH]; [reflexivity |].
  cbn [concat_output fold_right map unlines]. fold (concat_output tr).
  fold (unlines (map (fun s => line (st_cycle s) (count (st_rise_out s))) tr)).
  unfold step_output. now rewrite append_assoc, IH.
Qed.

Lemma main_stdout (argv : list string) (v0 : Verilated) :
  stdout (snd (main argv v0))
  = unlines (map (fun cv => line (fst cv) (snd cv)) (combine cycles reported)).
Proof.
  destruct (main_spec argv v0) as (_ & _ & Hout & _). rewrite Hout.
  rewrite output_unlines, <- steps_reported, map_map. reflexivity.
Qed.

Lemma main_lines (argv : list string) (v0 : Verilated) :
  split_lines (stdout (snd (main argv v0)))
  = map (fun cv => line (fst cv) (snd cv)) (combine cycles reported).
Proof.
  destruct (main_spec argv v0) as (_ & _ & Hout & _). rewrite Hout.
  rewrite split_lines_output, <- steps_reported, map_map. reflexivity.
Qed.

(** C1. The loop runs exactly 100 cycles: [printf] is called for the cycles
    0, 1, ..., 99 in this order and for no other; the standard output is the
    text of the 100 lines [Cycle <n>: count = <value>] in increasing order of
    [n] and nothing else, and for every [n] below 100 exactly one line of the
    output is a line about cycle [n]. *)
Theorem main_prints_one_line_per_cycle (argv : list string) (v0 : Verilated) :
  let w := snd (main argv v0) in
  exists values : list Z,
    List.length values = 100%nat
    /\ StronglySorted Z.lt cycles
    /\ printed (log w) = combine cycles values
    /\ stdout w
       = unlines (map (fun cv => line (fst cv) (snd cv)) (combine cycles values))
    /\ split_lines (stdout w)
       = map (fun cv => line (fst cv) (snd cv)) (combine cycles values)
    /\ Forall (fun n => exists v,
                 filter (is_line_of n) (split_lines (stdout w)) = [line n v])
              cycles.
Proof.
  intros w. exists reported.
  split; [apply reported_length |].
  split; [apply zrange_sorted |].
  split; [apply main_printed |].
  split; [apply main_stdout |].
  split; [apply main_lines |].
  apply Forall_forall. intros n Hn. subst w. rewrite main_lines.
  rewrite filter_map_comm.
  destruct (filter_zrange_one 100 0 n reported reported_length) as [v Hv].
  { apply cycles_bounds in Hn. lia. }
  exists v. fold cycles in Hv.
  rewrite (filter_ext_in _ (fun cv => n =? fst cv)), Hv; [reflexivity |].
  intros [c x] Hin. apply in_combine_l in Hin.
  apply is_line_of_line; assumption.
Qed.

(** C2. Every cycle of the run is the same procedure: the reset-window
    writes, then [clk = 0] and an evaluation (followed by a sample at
    [2 * cycle] when a recorder is there), then [clk = 1] and an evaluation
    (followed by a sample at [2 * cycle + 1]), and only then the report of
    [count]; a cycle has exactly two evaluations, and the value reported is
    the one the rising-edge evaluation left. *)
Theorem per_cycle_procedure (argv : list string) (v0 : Verilated) :
  let w := snd (main argv v0) in
  let tracing := negb (got_finish v0) in
  map st_cycle run_steps = cycles
  /\ log w = startup_events (got_finish v0)
             ++ flat_map (step_events tracing) run_steps
             ++ teardown_events tracing
  /\ Forall (fun s =>
       let c := st_cycle s in
       step_events tracing s
       = policy_events c
         ++ [EvSetClk 0; EvEval (ports (st_fall_in s))]
         ++ (if tracing then [EvDump (2 * c)] else [])
         ++ [EvSetClk 1; EvEval (ports (st_rise_in s))]
         ++ (if tracing then [EvDump (2 * c + 1)] else [])
         ++ [EvPrintf c (count (st_rise_out s))]
       /\ List.length (evals_seen (step_events tracing s)) = 2%nat
       /\ clk (st_fall_in s) = 0
       /\ st_fall_out s = dut_eval (st_fall_in s)
       /\ st_rise_in s = with_clk 1 (st_fall_out s)
       /\ st_rise_out s = dut_eval (st_rise_in s)) run_steps
  /\ fs w = (if tracing
             then [("counter.vcd"%string,
                    flat_map (fun s =>
                      [(2 * st_cycle s, signals (st_fall_out s));
                       (2 * st_cycle s + 1, signals (st_rise_out s))]) run_steps)]
             else [])
  /\ printed (log w) = map (fun s => (st_cycle s, count (st_rise_out s))) run_steps.
Proof.
  intros w tracing.
  destruct (main_spec argv v0) as (_ & Hlog & _ & Hfs & _).
  split; [apply run_steps_cycles |].
  split; [exact Hlog |].
  split.
  - unfold run_steps. generalize (@top0 St dut). generalize cycles.
    induction l as [| c cs IH]; intros m; constructor; [| apply IH].
    cbn. repeat split.
    unfold step_events, policy_events; cbn.
    destruct (c <? 5), tracing; reflexivity.
  - split.
    + subst w tracing. rewrite Hfs. destruct (got_finish v0); reflexivity.
    + subst w. rewrite main_printed. symmetry. apply steps_reported.
Qed.

(** ** The levels that the evaluations see *)

Lemma evals_steps (tracing : bool) (tr : list (@Step St)) :
  evals_seen (flat_map (step_events tracing) tr)
  = flat_map (fun s => [ports (st_fall_in s); ports (st_rise_in s)]) tr.
Proof.
  unfold evals_seen. rewrite flat_map_flat_map.
  apply flat_map_ext. intros s.
  unfold step_events, policy_events.
  destruct (st_cycle s <? 5), tracing; reflexivity.
Qed.

Lemma main_evals (argv : list string) (v0 : Verilated) :
  evals_seen (log (snd (main argv v0)))
  = flat_map (fun s => [ports (st_fall_in s); ports (st_rise_in s)]) run_steps.
Proof.
  destruct (main_spec argv v0) as (_ & Hlog & _). rewrite Hlog.
  unfold evals_seen. rewrite !flat_map_app. fold evals_seen.
  rewrite evals_steps. destruct (got_finish v0); cbn; now rewrite app_nil_r.
Qed.

Lemma marks_steps (tracing : bool) (tr : list (@Step St)) :
  marks (flat_map (step_events tracing) tr)
  = flat_map (fun c => (if c <? 5 then [WriteRstN 0]
                        else [WriteRstN 1; WriteEnable 1]) ++ [EndOfCycle c])
             (map st_cycle tr).
Proof.
  unfold marks. rewrite flat_map_flat_map, flat_map_of_map.
  apply flat_map_ext. intros s.
  unfold step_events, policy_events.
  destruct (st_cycle s <? 5), tracing; reflexivity.
Qed.

Lemma main_marks (argv : list string) (v0 : Verilated) :
  marks (log (snd (main argv v0)))
  = [WriteRstN 0; WriteEnable 0]
    ++ flat_map (fun c => (if c <? 5 then [WriteRstN 0]
                           else [WriteRstN 1; WriteEnable 1]) ++ [EndOfCycle c])
                cycles.
Proof.
  destruct (main_spec argv v0) as (_ & Hlog & _). rewrite Hlog.
  unfold marks. rewrite !flat_map_app. fold marks.
  rewrite marks_steps, run_steps_cycles.
  destruct (got_finish v0); cbn -[cycles flat_map]; now rewrite app_nil_r.
Qed.

Section InputsKept.

(** An evaluation reads the input ports and leaves them as they are. *)
Hypothesis eval_keeps_ports : forall m : Vcounter St, ports (dut_eval m) = ports m.

Lemma eval_keeps_rst_n (m : Vcounter St) : rst_n (dut_eval m) = rst_n m.
Proof. exact (f_equal p_rst_n (eval_keeps_ports m)). Qed.

Lemma eval_keeps_enable (m : Vcounter St) : enable (dut_eval m) = enable m.
Proof. exact (f_equal p_enable (eval_keeps_ports m)). Qed.

Lemma trajectory_ports (k : nat) : forall (from : Z) (m : Vcounter St),
  (from < 5 -> enable m = 0) ->
  flat_map (fun s => [ports (st_fall_in s); ports (st_rise_in s)])
           (trajectory (zrange from k) m)
  = flat_map (fun c => [expected_ports 0 c; expected_ports 1 c]) (zrange from k).
Proof.
  induction k as [| k IH]; intros from m Hen; [reflexivity |].
  cbn [zrange trajectory flat_map]. rewrite IH.
  - f_equal. unfold observe, policy, expected_ports, released, ports; cbn.
    rewrite eval_keeps_rst_n, eval_keeps_enable.
    destruct (Z.ltb_spec from 5) as [Hlt | Hge]; cbn; [rewrite (Hen Hlt) |];
      reflexivity.
  - intros Hlt. unfold observe, policy; cbn.
    rewrite eval_keeps_enable; cbn. rewrite eval_keeps_enable.
    destruct (Z.ltb_spec from 5) as [Hlt' | Hge]; [| lia]. cbn. apply Hen, Hlt'.
Qed.

Lemma trajectory_enable (k : nat) : forall (from : Z) (m : Vcounter St),
  (from < 5 -> enable m = 0) ->
  Forall (fun s => enable (st_fall_in s) = released (st_cycle s)
                   /\ enable (st_rise_in s) = released (st_cycle s))
         (trajectory (zrange from k) m).
Proof.
  induction k as [| k IH]; intros from m Hen; [constructor |].
  cbn [zrange trajectory].
  assert (Hin : enable (with_clk 0 (policy from m)) = released from).
  { unfold policy, released.
    destruct (Z.ltb_spec from 5) as [Hlt | Hge]; cbn; [apply Hen, Hlt | reflexivity]. }
  constructor.
  - cbn. rewrite eval_keeps_enable. split; exact Hin.
  - apply IH. intros Hlt. cbn. rewrite eval_keeps_enable. cbn.
    rewrite eval_keeps_enable, Hin. unfold released.
    destruct (Z.ltb_spec from 5); [reflexivity | lia].
Qed.

Lemma main_evals_expected (argv : list string) (v0 : Verilated) :
  evals_seen (log (snd (main argv v0)))
  = flat_map (fun c => [expected_ports 0 c; expected_ports 1 c]) cycles.
Proof.
  rewrite main_evals. apply trajectory_ports. reflexivity.
Qed.

(** C3. Both evaluations of a cycle below 5 see [rst_n = 0], both
    evaluations of a cycle from 5 on see [rst_n = 1] and [enable = 1]; read
    as a state of the driver, the evaluations are ten in RESETTING followed
    by a hundred and ninety in RUNNING, with the single transition between
    cycle 4 and cycle 5, and after the writes of 0 (the initial one and those
    of cycles 0 to 4) only 1 is written to [rst_n]. *)
Theorem reset_window_policy (argv : list string) (v0 : Verilated) :
  let w := snd (main argv v0) in
  evals_seen (log w)
  = flat_map (fun s => [ports (st_fall_in s); ports (st_rise_in s)]) run_steps
  /\ Forall (fun s =>
       if st_cycle s <? 5
       then rst_n (st_fall_in s) = 0 /\ rst_n (st_rise_in s) = 0
       else rst_n (st_fall_in s) = 1 /\ rst_n (st_rise_in s) = 1
            /\ enable (st_fall_in s) = 1 /\ enable (st_rise_in s) = 1) run_steps
  /\ map driver_state (evals_seen (log w))
     = repeat RESETTING 10 ++ repeat RUNNING 190
  /\ transitions (map driver_state (evals_seen (log w))) = [(RESETTING, RUNNING)]
  /\ rst_n_writes (log w) = repeat 0 6 ++ repeat 1 95.
Proof.
  intros w. split; [apply main_evals |]. split.
  - unfold run_steps. generalize (@top0 St dut). generalize cycles.
    induction l as [| c cs IH]; intros m; constructor; [| apply IH].
    unfold observe, policy; cbn. rewrite eval_keeps_rst_n, eval_keeps_enable.
    destruct (c <? 5); cbn; repeat split; reflexivity.
  - subst w. rewrite main_evals_expected.
    split; [reflexivity |]. split; [reflexivity |].
    destruct (main_spec argv v0) as (_ & Hlog & _). rewrite Hlog.
    unfold rst_n_writes. rewrite !flat_map_app, flat_map_flat_map.
    rewrite (flat_map_ext _ (fun s => [released (st_cycle s)])).
    + rewrite flat_map_singleton, <- (map_map st_cycle released), run_steps_cycles.
      destruct (got_finish v0); reflexivity.
    + intros s. unfold step_events, policy_events, released.
      destruct (st_cycle s <? 5), (got_finish v0); reflexivity.
Qed.

(** C10. Through the reset window both evaluations of every cycle see
    [enable = 0], from cycle 5 on they see [enable = 1]; [enable] is written
    once with 0 before the loop, not at all in cycles 0 to 4, and from cycle 5
    on with 1, each time right after [rst_n] is written with 1. *)
Theorem enable_follows_reset_release (argv : list string) (v0 : Verilated) :
  let w := snd (main argv v0) in
  Forall (fun s =>
       enable (st_fall_in s) = released (st_cycle s)
       /\ enable (st_rise_in s) = released (st_cycle s)) run_steps
  /\ map p_enable (evals_seen (log w)) = repeat 0 10 ++ repeat 1 190
  /\ marks (log w)
     = [WriteRstN 0; WriteEnable 0]
       ++ flat_map (fun c => (if c <? 5 then [WriteRstN 0]
                              else [WriteRstN 1; WriteEnable 1]) ++ [EndOfCycle c])
                   cycles
  /\ enable_writes (log w) = 0 :: repeat 1 95.
Proof.
  intros w. split; [| split; [| split]].
  - apply (trajectory_enable 100 0 top0). reflexivity.
  - subst w. rewrite main_evals_expected. reflexivity.
  - apply main_marks.
  - destruct (main_spec argv v0) as (_ & Hlog & _). subst w. rewrite Hlog.
    unfold enable_writes. rewrite !flat_map_app, flat_map_flat_map.
    rewrite (flat_map_ext _ (fun s => if st_cycle s <? 5 then [] else [1])).
    + rewrite <- (flat_map_of_map (fun c => if c <? 5 then [] else [1]) st_cycle).
      rewrite run_steps_cycles.
      destruct (got_finish v0); reflexivity.
    + intros s. unfold step_events, policy_events.
      destruct (st_cycle s <? 5), (got_finish v0); reflexivity.
Qed.

End InputsKept.

(** ** The waveform *)

Lemma sample_times (tr : list (@Step St)) :
  map fst (flat_map step_samples tr)
  = flat_map (fun c => [2 * c; 2 * c + 1]) (map st_cycle tr).
Proof. induction tr as [| s tr IH]; simpl; [| rewrite IH]; reflexivity. Qed.

Lemma dump_steps (tr : list (@Step St)) :
  dump_times (flat_map (step_events true) tr)
  = flat_map (fun c => [2 * c; 2 * c + 1]) (map st_cycle tr).
Proof.
  unfold dump_times. rewrite flat_map_flat_map, flat_map_of_map.
  apply flat_map_ext. intros s.
  unfold step_events, policy_events. destruct (st_cycle s <? 5); reflexivity.
Qed.

(** C4. When the backend has not finished at startup, the run writes one
    waveform, [counter.vcd], of exactly 200 samples; their time stamps are
    0, 1, ..., 199 in this order, strictly increasing; the samples of cycle
    [c] are the falling-edge one at [2 * c] and the rising-edge one at
    [2 * c + 1]; and these are the times of the calls of [dump]. *)
Theorem trace_timestamps (argv : list string) (v0 : Verilated) :
  got_finish v0 = false ->
  let w := snd (main argv v0) in
  exists samples : list Sample,
    fs w = [("counter.vcd"%string, samples)]
    /\ List.length samples = 200%nat
    /\ map fst samples = zrange 0 200
    /\ StronglySorted Z.lt (map fst samples)
    /\ samples = flat_map (fun s =>
                   [(2 * st_cycle s, signals (st_fall_out s));
                    (2 * st_cycle s + 1, signals (st_rise_out s))]) run_steps
    /\ dump_times (log w) = zrange 0 200.
Proof.
  intros Hfin w.
  destruct (main_spec argv v0) as (_ & Hlog & _ & Hfs & _).
  rewrite Hfin in Hfs, Hlog.
  assert (Htimes : map fst (flat_map step_samples run_steps) = zrange 0 200).
  { rewrite sample_times, run_steps_cycles. reflexivity. }
  exists (flat_map step_samples run_steps).
  split; [exact Hfs |].
  split.
  { rewrite <- (length_map fst (flat_map step_samples run_steps)), Htimes.
    apply zrange_length. }
  split; [exact Htimes |].
  split; [rewrite Htimes; apply zrange_sorted |].
  split; [reflexivity |].
  subst w. rewrite Hlog. unfold dump_times. rewrite !flat_map_app. fold dump_times.
  cbn [negb]. rewrite dump_steps, run_steps_cycles. reflexivity.
Qed.

(** ** Runs with and without a recorder *)

Lemma dut_events_steps (tracing : bool) (tr : list (@Step St)) :
  filter is_dut_event (flat_map (step_events tracing) tr)
  = flat_map (step_events false) tr.
Proof.
  rewrite filter_flat_map. apply flat_map_ext. intros s.
  unfold step_events, policy_events.
  destruct (st_cycle s <? 5), tracing; reflexivity.
Qed.

Lemma main_dut_events (argv : list string) (v0 : Verilated) :
  filter is_dut_event (log (snd (main argv v0)))
  = [EvSetRstN 0; EvSetEnable 0; EvSetClk 0] ++ flat_map (step_events false) run_steps.
Proof.
  destruct (main_spec argv v0) as (_ & Hlog & _). rewrite Hlog.
  rewrite !filter_app, dut_events_steps.
  destruct (got_finish v0); cbn -[flat_map run_steps]; now rewrite app_nil_r.
Qed.

Lemma dump_free_steps (tr : list (@Step St)) :
  dump_times (flat_map (step_events false) tr) = [].
Proof.
  unfold dump_times.
  rewrite flat_map_flat_map, (flat_map_ext _ (fun _ => [])); [apply flat_map_empty |].
  intros s. unfold step_events, policy_events.
  destruct (st_cycle s <? 5); reflexivity.
Qed.

(** C7. Two runs on the same model, the first with a recorder and the
    second without: the writes to the ports, the evaluations and the reports
    are the same and in the same order, the standard output, the final
    model and the exit status are the same; the first run leaves the waveform
    [counter.vcd], the second leaves none and never calls [dump]. *)
Theorem tracing_is_transparent (argv : list string) (v1 v2 : Verilated) :
  got_finish v1 = false ->
  got_finish v2 = true ->
  let r1 := main argv v1 in
  let r2 := main argv v2 in
  filter is_dut_event (log (snd r1)) = filter is_dut_event (log (snd r2))
  /\ stdout (snd r1) = stdout (snd r2)
  /\ top (snd r1) = top (snd r2)
  /\ fst r1 = fst r2
  /\ (exists samples, fs (snd r1) = [("counter.vcd"%string, samples)])
  /\ fs (snd r2) = []
  /\ dump_times (log (snd r2)) = [].
Proof.
  intros H1 H2 r1 r2. subst r1 r2.
  destruct (main_spec argv v1) as (Hx1 & _ & Ho1 & Hf1 & _ & Ht1 & _).
  destruct (main_spec argv v2) as (Hx2 & Hl2 & Ho2 & Hf2 & _ & Ht2 & _).
  rewrite H1 in Hf1. rewrite H2 in Hf2, Hl2.
  split; [now rewrite !main_dut_events |].
  split; [now rewrite Ho1, Ho2 |].
  split; [now rewrite Ht1, Ht2 |].
  split; [now rewrite Hx1, Hx2 |].
  split; [eexists; exact Hf1 |].
  split; [exact Hf2 |].
  rewrite Hl2. unfold dump_times. rewrite !flat_map_app. fold dump_times.
  cbn [negb]. rewrite dump_free_steps. reflexivity.
Qed.

(** ** The end of a run *)

Lemma teardown_free_steps (tracing : bool) (tr : list (@Step St)) :
  filter is_teardown_event (flat_map (step_events tracing) tr) = [].
Proof.
  rewrite filter_flat_map, (flat_map_ext _ (fun _ => [])); [apply flat_map_empty |].
  intros s. unfold step_events, policy_events.
  destruct (st_cycle s <? 5), tracing; reflexivity.
Qed.

Lemma open_free_steps (tracing : bool) (tr : list (@Step St)) :
  existsb is_open_event (flat_map (step_events tracing) tr) = false.
Proof.
  induction tr as [| s tr IH]; [reflexivity |].
  cbn [flat_map]. rewrite existsb_app, IH, orb_false_r.
  unfold step_events, policy_events.
  destruct (st_cycle s <? 5), tracing; reflexivity.
Qed.

(** C8. A run ends with its teardown and nothing of it happens earlier:
    when a recorder was opened, [close], then the release of the recorder,
    then the release of the model, then the return of 0; when none was
    opened, the release of the model and the return of 0. No object stays
    allocated. A recorder was opened exactly when the backend had not
    finished at startup. *)
Theorem teardown_order (argv : list string) (v0 : Verilated) :
  let w := snd (main argv v0) in
  let opened := existsb is_open_event (log w) in
  exists before : list Event,
    log w = before
            ++ (if opened then [EvClose; EvDelete ObjTfp] else [])
            ++ [EvDelete ObjTop; EvReturn 0]
    /\ filter is_teardown_event before = []
    /\ opened = negb (got_finish v0)
    /\ fst (main argv v0) = 0
    /\ live w = [].
Proof.
  intros w opened.
  destruct (main_spec argv v0) as (Hexit & Hlog & _ & _ & Hlive & _).
  assert (Hopened : opened = negb (got_finish v0)).
  { subst opened w. rewrite Hlog, !existsb_app, open_free_steps.
    destruct (got_finish v0); reflexivity. }
  exists (startup_events (got_finish v0)
          ++ flat_map (step_events (negb (got_finish v0))) run_steps).
  split.
  - subst w. rewrite Hlog, Hopened, <- app_assoc. reflexivity.
  - split; [| auto].
    rewrite filter_app, teardown_free_steps.
    destruct (got_finish v0); reflexivity.
Qed.

(** ** The finish flag *)

Lemma finish_free_steps (tracing : bool) (tr : list (@Step St)) :
  finish_queries (flat_map (step_events tracing) tr) = [].
Proof.
  unfold finish_queries.
  rewrite flat_map_flat_map, (flat_map_ext _ (fun _ => [])); [apply flat_map_empty |].
  intros s. unfold step_events, policy_events.
  destruct (st_cycle s <? 5), tracing; reflexivity.
Qed.

(** C9. [gotFinish] is asked once, as the third call of the run and before
    anything is done to the model; nothing after it asks again, and its
    answer decides whether a recorder is opened. Whatever the
    evaluations do to the flag, the loop makes its 200 evaluations and its
    100 reports, for the cycles 0 to 99; the flag that the run leaves is the
    one it found, or one raised by an evaluation on the way. *)
Theorem finish_checked_once (argv : list string) (v0 : Verilated) :
  let w := snd (main argv v0) in
  finish_queries (log w) = [got_finish v0]
  /\ existsb is_open_event (log w) = negb (got_finish v0)
  /\ (exists rest : list Event,
        log w = [EvCommandArgs; EvNew ObjTop; EvGotFinish (got_finish v0)] ++ rest
        /\ finish_queries rest = [])
  /\ List.length (evals_seen (log w)) = 200%nat
  /\ map fst (printed (log w)) = cycles
  /\ got_finish (ctx w) = got_finish v0 || existsb step_finish run_steps.
Proof.
  intros w.
  destruct (main_spec argv v0) as (_ & Hlog & _ & _ & _ & _ & Hflag).
  split; [| split; [| split; [| split; [| split]]]].
  - subst w. rewrite Hlog. unfold finish_queries. rewrite !flat_map_app.
    fold finish_queries. rewrite finish_free_steps.
    destruct (got_finish v0); reflexivity.
  - subst w. rewrite Hlog, !existsb_app, open_free_steps.
    destruct (got_finish v0); reflexivity.
  - eexists. split.
    + subst w. rewrite Hlog. unfold startup_events. rewrite <- app_assoc. reflexivity.
    + unfold finish_queries. rewrite !flat_map_app. fold finish_queries.
      rewrite finish_free_steps. destruct (got_finish v0); reflexivity.
  - subst w. rewrite main_evals.
    rewrite flat_map_concat_map, length_concat, map_map.
    rewrite (map_ext _ (fun _ => 2%nat)) by reflexivity.
    rewrite map_const, run_steps_length. reflexivity.
  - subst w. rewrite main_printed, <- steps_reported, map_map.
    apply run_steps_cycles.
  - exact Hflag.
Qed.

End Run.

(** ** The run on the counter *)

Section Counting.

Variable width : nat.
Variables reset_value power_on : Z.

Let the_counter : Dut Counter.Regs :=
  Counter.counter_dut width reset_value power_on.
Let modulus : Z := Counter.modulus width.

(** What a whole cycle does to [count]: in the reset window it is the reset
    value, afterwards the one rising edge of the cycle adds 1. *)
Lemma counter_cycle (c : Z) (m : Vcounter Counter.Regs) :
  count (st_rise_out (@observe _ the_counter c m))
  = if c <? 5 then reset_value else (count m + 1) mod modulus.
Proof.
  unfold observe, policy. cbn [st_rise_out dut_eval the_counter].
  destruct (c <? 5); cbn; rewrite ?andb_false_r; reflexivity.
Qed.

Lemma trajectory_counts (k : nat) :
  forall (from : Z) (m : Vcounter Counter.Regs) (i : nat),
  (i < k)%nat ->
  let counts := map (fun s => count (st_rise_out s))
                    (@trajectory _ the_counter (zrange from k) m) in
  nth i counts 0
  = if from + Z.of_nat i <? 5 then reset_value
    else (match i with
          | O => count m
          | S j => nth j counts 0
          end + 1) mod modulus.
Proof.
  induction k as [| k IH]; intros from m i Hi; [lia |].
  cbn zeta. cbn [zrange trajectory map].
  destruct i as [| i].
  - cbn [nth]. rewrite counter_cycle, Z.add_0_r. reflexivity.
  - cbn [nth]. rewrite (IH (from + 1) _ i) by lia.
    replace (from + 1 + Z.of_nat i) with (from + Z.of_nat (S i)) by lia.
    destruct i; reflexivity.
Qed.

Let value_at (c : Z) : Z := nth (Z.to_nat c) (@reported _ the_counter) 0.

Lemma reported_recurrence (c : Z) :
  0 <= c < 100 ->
  value_at c = if c <? 5 then reset_value else (value_at (c - 1) + 1) mod modulus.
Proof.
  intros Hc. unfold value_at, reported, run_steps, cycles.
  rewrite (trajectory_counts 100 0 top0 (Z.to_nat c)) by lia.
  rewrite Z.add_0_l, Z2Nat.id by lia.
  destruct (Z.ltb_spec c 5) as [Hlt | Hge]; [reflexivity |].
  replace (Z.to_nat c) with (S (Z.to_nat (c - 1))) at 1 by lia.
  reflexivity.
Qed.

Lemma reported_in_reset (c : Z) : 0 <= c < 5 -> value_at c = reset_value.
Proof.
  intros Hc. rewrite reported_recurrence by lia.
  destruct (Z.ltb_spec c 5); [reflexivity | lia].
Qed.

Lemma reported_counting (j : nat) :
  (j < 95)%nat ->
  value_at (5 + Z.of_nat j) = (reset_value + 1 + Z.of_nat j) mod modulus.
Proof.
  induction j as [| j IH]; intros Hj.
  - change (5 + Z.of_nat 0) with 5. rewrite reported_recurrence by lia.
    change (5 <? 5) with false. cbv iota. change (5 - 1) with 4.
    rewrite (reported_in_reset 4) by lia. f_equal. lia.
  - rewrite reported_recurrence by lia.
    destruct (Z.ltb_spec (5 + Z.of_nat (S j)) 5) as [Hlt | _]; [lia |].
    replace (5 + Z.of_nat (S j) - 1) with (5 + Z.of_nat j) by lia.
    rewrite IH by lia. rewrite Zplus_mod_idemp_l.
    f_equal. lia.
Qed.

Lemma printed_values (argv : list string) (v0 : Verilated) :
  map snd (printed (log (snd (@main _ the_counter argv v0))))
  = @reported _ the_counter.
Proof.
  rewrite main_printed, <- steps_reported, map_map. reflexivity.
Qed.

(** C6. On the counter, the value reported for a cycle below 5 is the
    reset value, and the value reported for a cycle from 5 on is the value
    reported for the cycle before it plus 1, modulo two to the width. *)
Theorem counter_reports (argv : list string) (v0 : Verilated) :
  let w := snd (@main _ the_counter argv v0) in
  let value c := nth (Z.to_nat c) (map snd (printed (log w))) 0 in
  map fst (printed (log w)) = cycles
  /\ Forall (fun c =>
       value c = if c <? 5 then reset_value
                 else (value (c - 1) + 1) mod 2 ^ Z.of_nat width) cycles.
Proof.
  intros w value. split.
  - subst w. rewrite main_printed, <- steps_reported, map_map.
    apply run_steps_cycles.
  - apply Forall_forall. intros c Hc. apply cycles_bounds in Hc.
    subst value w. cbv beta. rewrite printed_values.
    apply reported_recurrence, Hc.
Qed.

End Counting.

(** C5, as the counter behaves. With the reset value 0, the cycles 0 to 4
    report 0, cycle 5 reports the first increment, 1, and cycle 99 reports
    95, that is 99 - 4, each modulo two to the width: the cycles 5 to 99 are
    95 rising edges with the counter enabled. *)
Theorem counter_scenario (width : nat) (power_on : Z) (argv : list string)
        (v0 : Verilated) :
  let w := snd (@main _ (Counter.counter_dut width 0 power_on) argv v0) in
  let value c := nth (Z.to_nat c) (map snd (printed (log w))) 0 in
  Forall (fun c => value c = 0) [0; 1; 2; 3; 4]
  /\ value 5 = 1 mod 2 ^ Z.of_nat width
  /\ value 99 = 95 mod 2 ^ Z.of_nat width
  /\ Forall (fun c => value c = if c <? 5 then 0
                                else (c - 4) mod 2 ^ Z.of_nat width) cycles.
Proof.
  intros w value.
  assert (Hval : forall c, 0 <= c < 100 ->
            value c = if c <? 5 then 0 else (c - 4) mod 2 ^ Z.of_nat width).
  { intros c Hc. subst value w. cbv beta. rewrite printed_values.
    destruct (Z.ltb_spec c 5) as [Hlt | Hge].
    - apply reported_in_reset. lia.
    - replace c with (5 + Z.of_nat (Z.to_nat (c - 5))) at 1 by lia.
      rewrite reported_counting by lia. unfold Counter.modulus. f_equal. lia. }
  split; [| split; [| split]].
  - repeat (constructor; [rewrite Hval by lia; reflexivity |]). constructor.
  - rewrite Hval by lia. reflexivity.
  - rewrite Hval by lia. reflexivity.
  - apply Forall_forall. intros c Hc. apply Hval, cycles_bounds, Hc.
Qed.

(** C5, as the claim has it, fails on an 8-bit counter: cycle 99 reports
    95, which is not 94 modulo 256. *)
Lemma counter_scenario_94_fails :
  let w := snd (@main _ counter8 [] fresh_backend) in
  let value c := nth (Z.to_nat c) (map snd (printed (log w))) 0 in
  ~ (Forall (fun c => value c = 0) [0; 1; 2; 3; 4]
     /\ value 5 = 1 mod 2 ^ 8
     /\ value 99 = 94 mod 2 ^ 8).
Proof.
  intros w value (_ & _ & H99).
  vm_compute in H99. discriminate H99.
Qed.

(** ** The theorems at work on the 8-bit counter *)

(** The counter leaves its input ports as they were driven. *)
Lemma counter_keeps_ports (width : nat) (reset_value power_on : Z)
      (m : Vcounter Counter.Regs) :
  ports (@dut_eval _ (Counter.counter_dut width reset_value power_on) m) = ports m.
Proof. reflexivity. Qed.

Lemma reset_window_policy_witness :
  let w := snd (@main _ counter8 [] fresh_backend) in
  (forall m, ports (@dut_eval _ counter8 m) = ports m)
  /\ map driver_state (evals_seen (log w)) = repeat RESETTING 10 ++ repeat RUNNING 190
  /\ transitions (map driver_state (evals_seen (log w))) = [(RESETTING, RUNNING)].
Proof.
  split; [exact (counter_keeps_ports 8 0 0) |].
  pose proof (@reset_window_policy _ counter8 (counter_keeps_ports 8 0 0)
                [] fresh_backend)
    as (_ & _ & Hstates & Htrans & _).
  split; [exact Hstates | exact Htrans].
Defined.

Lemma enable_follows_reset_release_witness :
  let w := snd (@main _ counter8 [] fresh_backend) in
  (forall m, ports (@dut_eval _ counter8 m) = ports m)
  /\ map p_enable (evals_seen (log w)) = repeat 0 10 ++ repeat 1 190
  /\ enable_writes (log w) = 0 :: repeat 1 95.
Proof.
  split; [exact (counter_keeps_ports 8 0 0) |].
  pose proof (@enable_follows_reset_release _ counter8 (counter_keeps_ports 8 0 0)
                [] fresh_backend)
    as (_ & Hseen & _ & Hwrites).
  split; [exact Hseen | exact Hwrites].
Defined.

Lemma trace_timestamps_witness :
  got_finish fresh_backend = false
  /\ exists samples : list Sample,
       fs (snd (@main _ counter8 [] fresh_backend)) = [("counter.vcd"%string, samples)]
       /\ map fst samples = zrange 0 200.
Proof.
  split; [reflexivity |].
  destruct (@trace_timestamps _ counter8 [] fresh_backend eq_refl)
    as (samples & Hfs & _ & Htimes & _).
  exists samples. split; [exact Hfs | exact Htimes].
Defined.

Lemma tracing_is_transparent_witness :
  got_finish fresh_backend = false
  /\ got_finish finished_backend = true
  /\ stdout (snd (@main _ counter8 [] fresh_backend))
     = stdout (snd (@main _ counter8 [] finished_backend)).
Proof.
  split; [reflexivity |]. split; [reflexivity |].
  exact (proj1 (proj2
    (@tracing_is_transparent _ counter8 [] fresh_backend finished_backend
       eq_refl eq_refl))).
Defined.

(** A model that raises the finish flag in its first evaluation is still
    driven through all hundred cycles, with a recorder. *)
Example finish_raised_mid_run :
  let w := snd (@main _ finishing_dut [] fresh_backend) in
  got_finish (ctx w) = true
  /\ List.length (evals_seen (log w)) = 200%nat
  /\ List.length (split_lines (stdout w)) = 100%nat
  /\ List.length (dump_times (log w)) = 200%nat.
Proof. vm_compute. repeat split. Qed.

(** * Further properties of a run *)

Section Discipline.

Context {St : Type} {dut : Dut St}.

(** ** Objects are allocated, used and released in order *)

Lemma heap_run_app (l1 l2 : list Event) : forall heap : list Obj,
  heap_run heap (l1 ++ l2)
  = match heap_run heap l1 with
    | Some heap' => heap_run heap' l2
    | None => None
    end.
Proof.
  induction l1 as [| e l1 IH]; intros heap; [reflexivity |].
  cbn [app heap_run].
  destruct e; try destruct (allocated o heap);
    try destruct (forallb _ _); try apply IH; reflexivity.
Qed.

Lemma heap_run_steps_plain (tr : list (@Step St)) :
  heap_run [ObjTop] (flat_map (step_events false) tr) = Some [ObjTop].
Proof.
  induction tr as [| s tr IH]; [reflexivity |].
  cbn [flat_map]. rewrite heap_run_app.
  unfold step_events at 1, policy_events.
  destruct (st_cycle s <? 5); cbn; exact IH.
Qed.

Lemma heap_run_steps_traced (tr : list (@Step St)) :
  heap_run [ObjTfp; ObjTop] (flat_map (step_events true) tr)
  = Some [ObjTfp; ObjTop].
Proof.
  induction tr as [| s tr IH]; [reflexivity |].
  cbn [flat_map]. rewrite heap_run_app.
  unfold step_events at 1, policy_events.
  destruct (st_cycle s <? 5); cbn; exact IH.
Qed.

(** X1. Replayed on an empty heap, the calls of a run never work on an
    object that is not allocated (no use of [top] or [tfp] before its [new]
    or after its [delete], no call on a null [tfp]), never delete an object
    twice and never allocate over a live one, and they leave the heap empty;
    this is the heap that the final state records. *)
Theorem heap_discipline (argv : list string) (v0 : Verilated) :
  let w := snd (main argv v0) in
  heap_run [] (log w) = Some [] /\ live w = [].
Proof.
  intros w.
  destruct (main_spec argv v0) as (_ & Hlog & _ & _ & Hlive & _).
  split; [| exact Hlive]. subst w. rewrite Hlog.
  rewrite heap_run_app.
  destruct (got_finish v0); cbn [negb].
  - change (heap_run [] (startup_events true)) with (Some [ObjTop]).
    cbv iota. rewrite heap_run_app, heap_run_steps_plain. reflexivity.
  - change (heap_run [] (startup_events false)) with (Some [ObjTfp; ObjTop]).
    cbv iota. rewrite heap_run_app, heap_run_steps_traced. reflexivity.
Qed.

(** ** The calls on the recorder *)

Lemma recorder_steps (tr : list (@Step St)) :
  filter is_recorder_event (flat_map (step_events true) tr)
  = flat_map (fun c => [EvDump (2 * c); EvDump (2 * c + 1)]) (map st_cycle tr).
Proof.
  rewrite filter_flat_map, flat_map_of_map. apply flat_map_ext. intros s.
  unfold step_events, policy_events. destruct (st_cycle s <? 5); reflexivity.
Qed.

Lemma recorder_free_steps (tr : list (@Step St)) :
  filter is_recorder_event (flat_map (step_events false) tr) = [].
Proof.
  rewrite filter_flat_map, (flat_map_ext _ (fun _ => [])); [apply flat_map_empty |].
  intros s. unfold step_events, policy_events.
  destruct (st_cycle s <? 5); reflexivity.
Qed.

(** X2. The calls that concern the recorder are, in a run that finds the
    backend finished, none at all; otherwise exactly [traceEverOn(true)],
    the allocation, [trace(tfp, 99)], [open("counter.vcd")], the 200 calls
    of [dump] with the times 0 to 199, [close] and the release, in this
    order: the recorder is registered before it is opened, opened before
    the first sample and closed after the last. *)
Theorem recorder_protocol (argv : list string) (v0 : Verilated) :
  let w := snd (main argv v0) in
  filter is_recorder_event (log w)
  = if got_finish v0 then []
    else [EvTraceEverOn true; EvNew ObjTfp; EvTrace 99; EvOpen "counter.vcd"]
         ++ map EvDump (zrange 0 200)
         ++ [EvClose; EvDelete ObjTfp].
Proof.
  intros w. subst w.
  destruct (main_spec argv v0) as (_ & Hlog & _). rewrite Hlog.
  rewrite !filter_app.
  destruct (got_finish v0); cbn [negb].
  - rewrite recorder_free_steps. reflexivity.
  - rewrite recorder_steps, run_steps_cycles. reflexivity.
Qed.

(** ** The clock, for every model *)

Lemma map_flat_map {A B C : Type} (f : B -> C) (g : A -> list B) (l : list A) :
  map f (flat_map g l) = flat_map (fun x => map f (g x)) l.
Proof.
  induction l as [| x l IH]; simpl; [reflexivity |].
  now rewrite map_app, IH.
Qed.

Lemma evens_pairs {A B : Type} (f g : A -> B) (l : list A) :
  evens (flat_map (fun x => [f x; g x]) l) = map f l.
Proof. induction l as [| x l IH]; cbn; [| rewrite IH]; reflexivity. Qed.

Lemma clk_steps (tracing : bool) (tr : list (@Step St)) :
  clk_writes (flat_map (step_events tracing) tr)
  = flat_map (fun _ => [0; 1]) tr.
Proof.
  unfold clk_writes. rewrite flat_map_flat_map. apply flat_map_ext. intros s.
  unfold step_events, policy_events.
  destruct (st_cycle s <? 5), tracing; reflexivity.
Qed.

Lemma trajectory_fall_in (cs : list Z) : forall m : Vcounter St,
  map (fun s => (clk (st_fall_in s), rst_n (st_fall_in s), clk (st_rise_in s)))
      (trajectory cs m)
  = map (fun c => (0, released c, 1)) cs.
Proof.
  induction cs as [| c cs IH]; intros m; [reflexivity |].
  cbn [trajectory map]. rewrite IH. f_equal.
  unfold observe, policy, released. destruct (c <? 5); reflexivity.
Qed.

(** X5. Whatever the model does to its ports, the clock is written 201
    times, 0 before the loop and then 0, 1 in every cycle; the evaluations
    see the clock at 0, 1, 0, 1, ..., a hundred rising edges; and the
    falling-edge evaluation of cycle [c], the first of the cycle, sees
    [rst_n] as the reset-window policy has just written it. *)
Theorem clock_for_every_model (argv : list string) (v0 : Verilated) :
  let w := snd (main argv v0) in
  clk_writes (log w) = 0 :: map (fun t => t mod 2) (zrange 0 200)
  /\ map p_clk (evals_seen (log w)) = map (fun t => t mod 2) (zrange 0 200)
  /\ map p_rst_n (evens (evals_seen (log w))) = map released cycles.
Proof.
  intros w. subst w.
  pose proof (trajectory_fall_in cycles top0) as Hin. fold run_steps in Hin.
  split; [| split].
  - destruct (main_spec argv v0) as (_ & Hlog & _). rewrite Hlog.
    unfold clk_writes. rewrite !flat_map_app. fold clk_writes.
    rewrite clk_steps.
    rewrite <- (flat_map_of_map (fun _ : Z => [0; 1]) st_cycle), run_steps_cycles.
    destruct (got_finish v0); reflexivity.
  - rewrite main_evals, map_flat_map.
    transitivity
      (flat_map (fun x : Z * Z * Z => [fst (fst x); snd x])
         (map (fun s => (clk (st_fall_in s), rst_n (st_fall_in s),
                         clk (st_rise_in s))) run_steps)).
    + rewrite flat_map_of_map. reflexivity.
    + rewrite Hin, flat_map_of_map. reflexivity.
  - rewrite main_evals, evens_pairs, map_map.
    transitivity
      (map (fun x : Z * Z * Z => snd (fst x))
         (map (fun s => (clk (st_fall_in s), rst_n (st_fall_in s),
                         clk (st_rise_in s))) run_steps)).
    + rewrite map_map. reflexivity.
    + rewrite Hin, map_map. reflexivity.
Qed.

End Discipline.

(** ** Reading the output back *)

Lemma strip_prefix_app (p s : string) : strip_prefix p (p ++ s) = Some s.
Proof.
  induction p as [| a p IH]; [reflexivity |].
  cbn [append strip_prefix]. now rewrite Ascii.eqb_refl.
Qed.

Lemma break_at_colon_app (d rest : string) :
  all_chars not_colon d = true ->
  break_at_colon (d ++ String ":" rest) = (d, String ":" rest).
Proof.
  induction d as [| a d IH]; intros Hd; [reflexivity |].
  cbn [all_chars] in Hd. apply andb_true_iff in Hd as [Ha Hd].
  cbn [append break_at_colon]. unfold not_colon in Ha.
  apply negb_true_iff in Ha. now rewrite Ha, (IH Hd).
Qed.

Lemma fmt_d_no_colon (z : Z) : all_chars not_colon (CInt.fmt_d z) = true.
Proof.
  apply (all_chars_weaken is_sign_or_digit); [| apply fmt_d_chars].
  intros a Ha. unfold is_sign_or_digit in Ha. simpl in Ha.
  repeat (apply orb_true_iff in Ha as [Ha | Ha];
          [apply Ascii.eqb_eq in Ha; subst a; reflexivity |]).
  discriminate.
Qed.

Lemma read_d_fmt_d (z : Z) : read_d (CInt.fmt_d z) = Some z.
Proof.
  unfold read_d, CInt.fmt_d.
  assert (H : forall d, option_map Z.of_int
                (NilZero.int_of_string (NilZero.string_of_int d))
              = Some (Z.of_int d)).
  { intros [u | u]; destruct u; try reflexivity;
      rewrite NilZero.isi by discriminate; reflexivity. }
  rewrite H. f_equal. apply DecimalZ.of_to.
Qed.

Lemma line_round_trip_parse (c v : Z) : parse_line (line c v) = Some (c, v).
Proof.
  unfold parse_line, line.
  rewrite strip_prefix_app.
  change (": count = " ++ CInt.fmt_d v)%string
    with (String ":" (" count = " ++ CInt.fmt_d v)).
  rewrite break_at_colon_app by apply fmt_d_no_colon.
  change (String ":" (" count = " ++ CInt.fmt_d v))
    with (": count = " ++ CInt.fmt_d v)%string.
  rewrite strip_prefix_app, !read_d_fmt_d. reflexivity.
Qed.

(** X6. A line of the output can be read back: stripping [Cycle ], reading
    the number up to the colon, stripping [: count = ] and reading the rest
    gives the cycle and the value that were printed, for all integers, also
    negative ones; so a line determines both. *)
Theorem line_round_trip (c v c' v' : Z) :
  parse_line (line c v) = Some (c, v)
  /\ (line c v = line c' v' -> c = c' /\ v = v').
Proof.
  split; [apply line_round_trip_parse |].
  intros Heq. pose proof (line_round_trip_parse c v) as H.
  rewrite Heq, line_round_trip_parse in H.
  injection H as -> ->. split; reflexivity.
Qed.

Section Readings.

Context {St : Type} {dut : Dut St}.


End Readings.

Section Waveform.

Context {St : Type} {dut : Dut St}.

(** ** The waveform and the report agree *)

Lemma rising_samples_steps (tr : list (@Step St)) :
  filter (fun s : Sample => Z.odd (fst s)) (flat_map step_samples tr)
  = map (fun s => (2 * st_cycle s + 1, signals (st_rise_out s))) tr.
Proof.
  rewrite filter_flat_map, <- flat_map_singleton.
  apply flat_map_ext. intros s. unfold step_samples. cbn [filter fst].
  rewrite Z.odd_mul, Z.odd_add, Z.odd_mul. reflexivity.
Qed.

(** X3. In a run with a recorder, the samples at the odd times are the
    rising-edge samples, one per cycle, and the sample at time [2 * c + 1]
    carries as [count] exactly the value that is printed for cycle [c]. *)
Theorem report_matches_waveform (argv : list string) (v0 : Verilated) :
  got_finish v0 = false ->
  let w := snd (main argv v0) in
  exists samples : list Sample,
    fs w = [("counter.vcd"%string, samples)]
    /\ map (fun s : Sample => ((fst s - 1) / 2, s_count (snd s)))
           (filter (fun s : Sample => Z.odd (fst s)) samples)
       = printed (log w).
Proof.
  intros Hfin w.
  destruct (main_spec argv v0) as (_ & _ & _ & Hfs & _). rewrite Hfin in Hfs.
  exists (flat_map step_samples run_steps). split; [exact Hfs |].
  subst w. rewrite main_printed, <- steps_reported.
  rewrite rising_samples_steps, map_map.
  apply map_ext. intros s. cbn [fst snd signals s_count]. f_equal.
  replace (2 * st_cycle s + 1 - 1) with (st_cycle s * 2) by lia.
  apply Z.div_mul. discriminate.
Qed.


Section InputsKept.

Hypothesis eval_keeps_ports : forall m : Vcounter St, ports (dut_eval m) = ports m.

Lemma trajectory_sample_ports (k : nat) : forall (from : Z) (m : Vcounter St),
  (from < 5 -> enable m = 0) ->
  map sample_ports (flat_map step_samples (trajectory (zrange from k) m))
  = flat_map (fun c => [(2 * c, expected_ports 0 c);
                        (2 * c + 1, expected_ports 1 c)]) (zrange from k).
Proof.
  induction k as [| k IH]; intros from m Hen; [reflexivity |].
  cbn [zrange trajectory flat_map]. rewrite map_app, IH.
  - f_equal. unfold step_samples, sample_ports, signals. cbn.
    pose proof (eval_keeps_ports (with_clk 0 (policy from m))) as H0.
    pose proof (eval_keeps_ports
                  (with_clk 1 (dut_eval (with_clk 0 (policy from m))))) as H1.
    unfold ports in H0, H1. cbn in H0, H1.
    injection H0 as Hc0 Hr0 He0. injection H1 as Hc1 Hr1 He1.
    rewrite Hc1, Hr1, He1, Hc0, Hr0, He0.
    unfold policy, expected_ports, released.
    destruct (Z.ltb_spec from 5) as [Hlt | Hge]; cbn; [rewrite (Hen Hlt) |];
      reflexivity.
  - intros Hlt. cbn.
    rewrite (eval_keeps_enable eval_keeps_ports). cbn.
    rewrite (eval_keeps_enable eval_keeps_ports).
    unfold policy. destruct (Z.ltb_spec from 5) as [Hlt' | Hge]; [| lia].
    cbn. apply Hen, Hlt'.
Qed.

(** X4. For a model whose evaluation leaves the input ports as driven, the
    waveform of a run with a recorder shows the stimulus: the sample at time
    [t] has [clk] at [t mod 2], and [rst_n] and [enable] at 0 for the times
    below 10 (the cycles 0 to 4) and at 1 from time 10 on. *)
Theorem waveform_shows_stimulus (argv : list string) (v0 : Verilated) :
  got_finish v0 = false ->
  let w := snd (main argv v0) in
  exists samples : list Sample,
    fs w = [("counter.vcd"%string, samples)]
    /\ map sample_ports samples
       = map (fun t => (t, mkPorts (t mod 2) (released (t / 2)) (released (t / 2))))
             (zrange 0 200).
Proof.
  intros Hfin w.
  destruct (main_spec argv v0) as (_ & _ & _ & Hfs & _). rewrite Hfin in Hfs.
  exists (flat_map step_samples run_steps). split; [exact Hfs |].
  unfold run_steps, cycles.
  rewrite (trajectory_sample_ports 100 0 top0) by reflexivity.
  reflexivity.
Qed.

End InputsKept.

End Waveform.

(** ** The further theorems at work on the 8-bit counter *)

Lemma report_matches_waveform_witness :
  got_finish fresh_backend = false
  /\ exists samples : list Sample,
       fs (snd (@main _ counter8 [] fresh_backend)) = [("counter.vcd"%string, samples)]
       /\ map (fun s : Sample => ((fst s - 1) / 2, s_count (snd s)))
              (filter (fun s : Sample => Z.odd (fst s)) samples)
          = printed (log (snd (@main _ counter8 [] fresh_backend))).
Proof.
  split; [reflexivity |].
  exact (@report_matches_waveform _ counter8 [] fresh_backend eq_refl).
Defined.


Lemma waveform_shows_stimulus_witness :
  (forall m, ports (@dut_eval _ counter8 m) = ports m)
  /\ got_finish fresh_backend = false
  /\ exists samples : list Sample,
       fs (snd (@main _ counter8 [] fresh_backend)) = [("counter.vcd"%string, samples)]
       /\ map sample_ports samples
          = map (fun t => (t, mkPorts (t mod 2) (released (t / 2)) (released (t / 2))))
                (zrange 0 200).
Proof.
  split; [exact (counter_keeps_ports 8 0 0) |].
  split; [reflexivity |].
  exact (@waveform_shows_stimulus _ counter8 (counter_keeps_ports 8 0 0)
           [] fresh_backend eq_refl).
Defined.

(** ** The time stamps in machine arithmetic *)

(** X9. The time stamps [cycle*2] and [cycle*2+1] are computed in [int]
    and handed to [dump] as 64-bit unsigned numbers: for every cycle number
    from 0 up to, but not including, 2 to the 30 both are exact, so the
    rising-edge time is the falling-edge time plus one; the loop's bound of
    100 is far inside this range. *)
Theorem timestamps_exact (c : Z) :
  0 <= c < 2 ^ 30 ->
  CInt.to_u64 (CInt.mul c 2) = 2 * c
  /\ CInt.to_u64 (CInt.add (CInt.mul c 2) 1) = 2 * c + 1
  /\ CInt.add c 1 = c + 1.
Proof.
  intros Hc. unfold CInt.mul, CInt.add, CInt.to_u64.
  rewrite (wrap_small (c * 2)) by lia.
  rewrite (wrap_small (c * 2 + 1)) by lia.
  rewrite (wrap_small (c + 1)) by lia.
  rewrite !Z.mod_small by lia. lia.
Qed.

Lemma timestamps_exact_witness :
  0 <= 2 ^ 30 - 1 < 2 ^ 30
  /\ CInt.to_u64 (CInt.add (CInt.mul (2 ^ 30 - 1) 2) 1) = 2 * (2 ^ 30 - 1) + 1.
Proof.
  split; [lia |].
  exact (proj1 (proj2 (timestamps_exact (2 ^ 30 - 1) ltac:(lia)))).
Defined.
